(** * Request status narrowing: [getRequestStatus] and [isRequestStatus]

    A shallow embedding of [src/requestStatus.ts].  The two functions are
    JavaScript at run time, so they are embedded over run-time values: enum
    members are strings, the error state is a reference to an object of the
    heap, [typeof] and [in] are the operators of the language, and [in]
    throws a [TypeError] on a right operand that is not an object.  The
    TypeScript types of the file ([RequestStatusEnum], [RequestStatus],
    [ExtractRequestStatus]) are predicates on those values. *)

From stdpp Require Import gmap strings.

Open Scope string_scope.

(** ** Run-time values *)

Definition loc := positive.

(** The kinds of value the module can meet.  Numbers, symbols and functions
    are left out: like booleans they are neither strings nor objects. *)
Inductive value : Type :=
  | VUndefined
  | VNull
  | VBool (b : bool)
  | VString (s : string)
  | VObject (l : loc).

#[global] Instance value_eq_dec : EqDecision value.
Proof. solve_decision. Defined.

(** An object is a record of its own properties; the heap binds references
    to objects.  Inherited properties ([toString] and the like, from
    [Object.prototype]) are not modelled: ["error"] is not one of them. *)
Abbreviation object := (gmap string value).
Abbreviation heap := (gmap loc (gmap string value)).

Inductive error : Type := TypeError.

Inductive completion (A : Type) : Type :=
  | Normal (a : A)
  | Throw (e : error).
Arguments Normal {A} a.
Arguments Throw {A} e.

(** ** Computations: a heap is threaded, a throw ends the computation *)

Definition JS (A : Type) : Type := heap → completion A * heap.

#[global] Instance JS_ret : MRet JS := λ A a h, (Normal a, h).

#[global] Instance JS_bind : MBind JS := λ A B f m h,
  match m h with
  | (Normal a, h') => f a h'
  | (Throw e, h') => (Throw e, h')
  end.

Definition throw {A : Type} (e : error) : JS A := λ h, (Throw e, h).

(** [a && b] on booleans: [b] is evaluated only when [a] is true. *)
Definition and_then (a b : JS bool) : JS bool :=
  x ← a; if x : bool then b else mret false.

Infix "&&&" := and_then (at level 40, left associativity).

(** ** Operators of the language *)

(** [typeof v].  [typeof null] is ["object"]. *)
Definition typeof (v : value) : string :=
  match v with
  | VUndefined => "undefined"
  | VNull => "object"
  | VBool _ => "boolean"
  | VString _ => "string"
  | VObject _ => "object"
  end.

(** [a === b]: primitives by value, objects by reference. *)
Definition strict_equals (a b : value) : bool :=
  match a, b with
  | VUndefined, VUndefined => true
  | VNull, VNull => true
  | VBool x, VBool y => Bool.eqb x y
  | VString x, VString y => String.eqb x y
  | VObject x, VObject y => Pos.eqb x y
  | _, _ => false
  end.

(** The object a reference denotes.  A program cannot make a reference the
    heap does not bind; such a reference reads as an object without
    properties. *)
Definition deref (h : heap) (l : loc) : object := default ∅ (h !! l).

(** [k in v]: a [TypeError] unless [v] is an object. *)
Definition op_in (k : string) (v : value) : JS bool :=
  match v with
  | VObject l => λ h, (Normal (bool_decide (is_Some (deref h l !! k))), h)
  | _ => throw TypeError
  end.

(** [v.error], the member access of the call sites: a [TypeError] on [null]
    and [undefined], [undefined] on a boolean or a string (their wrappers
    have no such property) and on an object without the property. *)
Definition member_error (v : value) : JS value :=
  match v with
  | VObject l => λ h, (Normal (default VUndefined (deref h l !! "error")), h)
  | VBool _ | VString _ => mret VUndefined
  | VUndefined | VNull => throw TypeError
  end.

(** An object literal [{ ... }] allocates a fresh reference. *)
Definition object_literal (o : object) : JS value :=
  λ h, let l := fresh (dom h) in (Normal (VObject l), <[l := o]> h).

(** ** The types of the module *)

(** [enum RequestStatusEnum]: four members, each a string at run time. *)
Inductive RequestStatusEnum : Type := IDLE | PENDING | SUCCESS | ERROR.

#[global] Instance RequestStatusEnum_eq_dec : EqDecision RequestStatusEnum.
Proof. solve_decision. Defined.

Definition enum_string (t : RequestStatusEnum) : string :=
  match t with
  | IDLE => "idle"
  | PENDING => "pending"
  | SUCCESS => "success"
  | ERROR => "error"
  end.

Definition enum_value (t : RequestStatusEnum) : value := VString (enum_string t).

(** [{ error: string }]: an object whose [error] property holds a string.
    Other properties are allowed, the type is structural. *)
Definition ErrorObject (h : heap) (v : value) (m : string) : Prop :=
  ∃ l o, v = VObject l ∧ h !! l = Some o ∧ o !! "error" = Some (VString m).

(** [type RequestStatus = IDLE | PENDING | SUCCESS | { error: string }]. *)
Inductive RequestStatus (h : heap) : value → Prop :=
  | RS_idle : RequestStatus h (enum_value IDLE)
  | RS_pending : RequestStatus h (enum_value PENDING)
  | RS_success : RequestStatus h (enum_value SUCCESS)
  | RS_error v m : ErrorObject h v m → RequestStatus h v.

(** The same type as a check that computes. *)
Definition is_RequestStatus (h : heap) (v : value) : bool :=
  match v with
  | VString s =>
      String.eqb s "idle" || String.eqb s "pending" || String.eqb s "success"
  | VObject l =>
      match h !! l with
      | Some o => match o !! "error" with Some (VString _) => true | _ => false end
      | None => false
      end
  | _ => false
  end.

(** [ExtractRequestStatus<T>]: for [ERROR] the members of [RequestStatus]
    assignable to [{ error: string }], otherwise [T] itself. *)
Definition ExtractRequestStatus (h : heap) (t : RequestStatusEnum) (v : value) : Prop :=
  match t with
  | ERROR => RequestStatus h v ∧ ∃ m, ErrorObject h v m
  | _ => v = enum_value t
  end.

(** ** The two functions *)

(** [[
    export function getRequestStatus<T extends RequestStatus>(status: T) {
      if (typeof status === 'object' && 'error' in status) {
        return RequestStatusEnum.ERROR;
      }
      return status;
    }
    ]] *)
Definition getRequestStatus (status : value) : JS value :=
  c ← mret (strict_equals (VString (typeof status)) (VString "object"))
        &&& op_in "error" status;
  if c : bool then mret (enum_value ERROR) else mret status.

(** [[
    export function isRequestStatus<...>(requestStatus: R, status: S)
      : requestStatus is R & ExtractRequestStatus<S> {
      return getRequestStatus(requestStatus) === status;
    }
    ]] *)
Definition isRequestStatus (requestStatus status : value) : JS bool :=
  r ← getRequestStatus requestStatus;
  mret (strict_equals r status).

(** The state [{ error: m }] as the caller builds it. *)
Definition error_state (m : string) : JS value :=
  object_literal {[ "error" := VString m ]}.

(** Scenario 5 of the specification as a program: build the state, test
    it against [ERROR], read the message of the narrowed value. *)
Definition scenario_timeout : JS (bool * value) :=
  s ← error_state "timeout";
  b ← isRequestStatus s (enum_value ERROR);
  m ← member_error s;
  mret (b, m).

(** Calling a function twice in a row on the same arguments. *)
Definition twice {A : Type} (call : JS A) : JS (A * A) :=
  x ← call; y ← call; mret (x, y).

(** The round trip [isRequestStatus(s, getRequestStatus(s))]. *)
Definition round_trip (s : value) : JS bool :=
  t ← getRequestStatus s; isRequestStatus s t.

(** A heap with one error object, for the examples. *)
Definition heap_timeout : heap :=
  {[ 1%positive := {[ "error" := VString "timeout" ]} ]}.

(** ** The call sites and the dedicated guards of the article

    The article that comes with the module ([Un Esempio Pratico] to
    [Combinare Type Guards e Conditional Types]) shows the checks the two
    functions replace and the one-tag guards written before the generic
    one. *)


(** [[
    typeof requestStatus === "object" && "error" in requestStatus
    ]] *)
Definition manual_error_check (requestStatus : value) : JS bool :=
  mret (strict_equals (VString (typeof requestStatus)) (VString "object"))
    &&& op_in "error" requestStatus.

(** [[
    function isRequestStatusError(requestStatus: RequestStatus)
      : requestStatus is Extract<RequestStatus, { error: string }> {
      return getRequestStatus(requestStatus) === RequestStatusEnum.ERROR;
    }
    ]] *)
Definition isRequestStatusError (requestStatus : value) : JS bool :=
  r ← getRequestStatus requestStatus;
  mret (strict_equals r (enum_value ERROR)).

(** [isRequestStatusIdle], declared
    [requestStatus is Extract<RequestStatus, RequestStatusEnum.IDLE>]. *)
Definition isRequestStatusIdle (requestStatus : value) : JS bool :=
  r ← getRequestStatus requestStatus;
  mret (strict_equals r (enum_value IDLE)).

(** [isRequestStatusPending]. *)
Definition isRequestStatusPending (requestStatus : value) : JS bool :=
  r ← getRequestStatus requestStatus;
  mret (strict_equals r (enum_value PENDING)).

(** [isRequestStatusSuccess]. *)
Definition isRequestStatusSuccess (requestStatus : value) : JS bool :=
  r ← getRequestStatus requestStatus;
  mret (strict_equals r (enum_value SUCCESS)).

(** The call site [if (isRequestStatus(requestStatus, status)) { ...
    requestStatus.error ... }]: the answer of the guard and, when it is
    [true], what the member access reads. *)
Definition guarded_error_access (requestStatus status : value) : JS (option value) :=
  b ← isRequestStatus requestStatus status;
  if b : bool then v ← member_error requestStatus; mret (Some v) else mret None.

(** A heap with two error objects and an object without the property. *)
Definition heap_two_errors : heap :=
  {[ 1%positive := {[ "error" := VString "timeout" ]};
     2%positive := {[ "error" := VString "refused"; "code" := VString "E42" ]};
     3%positive := {[ "code" := VString "E42" ]} ]}.

(** ** The first example of the article: [print]

    [[
    function print(strs: string | string[]): string {
      if (strs && typeof strs === 'object') {
        console.log(strs.join(' '));
      } else {
        console.log(strs);
      }
    }
    ]]
    The argument is a string or an array of strings; [null] and [undefined]
    are kept to show what the truthiness test guards.  The console is the
    list of the values logged so far. *)
Module Print.

Inductive arg : Type :=
  | Undefined
  | Null
  | Str (s : string)
  | Arr (items : list string).

Definition console : Type := list arg.

(** [ToBoolean]: the empty string is falsy, an array is truthy. *)
Definition truthy (a : arg) : bool :=
  match a with
  | Undefined | Null => false
  | Str s => negb (String.eqb s "")
  | Arr _ => true
  end.

Definition typeof (a : arg) : string :=
  match a with
  | Undefined => "undefined"
  | Null => "object"
  | Str _ => "string"
  | Arr _ => "object"
  end.

(** [items.join(sep)] on an array of strings. *)
Definition join (sep : string) (items : list string) : string :=
  String.concat sep items.

(** [a.join(sep)]: only an array has the method. *)
Definition call_join (a : arg) (sep : string) : completion arg :=
  match a with
  | Arr items => Normal (Str (join sep items))
  | _ => Throw TypeError
  end.

Definition console_log (a : arg) (out : console) : console := (out ++ [a])%list.

(** The function falls off its end: it returns [undefined], whatever its
    declared return type. *)
Definition print (strs : arg) (out : console) : completion arg * console :=
  if truthy strs && String.eqb (typeof strs) "object"
  then match call_join strs " " with
       | Normal line => (Normal Undefined, console_log line out)
       | Throw e => (Throw e, out)
       end
  else (Normal Undefined, console_log strs out).

End Print.

(** * Properties *)

Section Operators.

Lemma bind_normal {A B : Type} (m : JS A) (f : A → JS B) h a h' :
  m h = (Normal a, h') → (m ≫= f) h = f a h'.
Proof. intros Hm. unfold mbind, JS_bind. by rewrite Hm. Qed.

Lemma bind_throw {A B : Type} (m : JS A) (f : A → JS B) h e h' :
  m h = (Throw e, h') → (m ≫= f) h = (Throw e, h').
Proof. intros Hm. unfold mbind, JS_bind. by rewrite Hm. Qed.

Lemma strict_equals_spec a b : strict_equals a b = true ↔ a = b.
Proof.
  destruct a as [| |x|x|x], b as [| |y|y|y]; simpl; try (split; [discriminate|congruence]);
    try done.
  - rewrite Bool.eqb_true_iff. split; congruence.
  - rewrite String.eqb_eq. split; congruence.
  - rewrite Pos.eqb_eq. split; congruence.
Qed.

Lemma strict_equals_refl a : strict_equals a a = true.
Proof. by apply strict_equals_spec. Qed.

Lemma enum_value_inj t t' : enum_value t = enum_value t' → t = t'.
Proof. by destruct t, t'. Qed.

Lemma Normal_enum_inj t t' :
  Normal (enum_value t) = Normal (enum_value t') → t = t'.
Proof. intros [= Heq]. by destruct t, t'. Qed.

Lemma strict_equals_enum t t' :
  strict_equals (enum_value t) (enum_value t') = bool_decide (t = t').
Proof. by destruct t, t'. Qed.

Lemma deref_Some h l o : h !! l = Some o → deref h l = o.
Proof. intros Hl. unfold deref. by rewrite Hl. Qed.

Lemma object_literal_fresh o h :
  ∃ l, h !! l = None ∧ object_literal o h = (Normal (VObject l), <[l := o]> h).
Proof.
  exists (fresh (dom h)). split; [|done].
  apply not_elem_of_dom, is_fresh.
Qed.

End Operators.

Section Types.

Lemma ErrorObject_inv h l m :
  ErrorObject h (VObject l) m → deref h l !! "error" = Some (VString m).
Proof. intros (l' & o & [= <-] & Hl & Ho). by rewrite (deref_Some _ _ _ Hl). Qed.

Lemma ErrorObject_fun h v m m' : ErrorObject h v m → ErrorObject h v m' → m = m'.
Proof.
  intros (l & o & -> & Hl & Ho) H'. apply ErrorObject_inv in H'.
  rewrite (deref_Some _ _ _ Hl), Ho in H'. congruence.
Qed.

(** The computed check decides the type. *)
Lemma is_RequestStatus_spec h v : is_RequestStatus h v = true ↔ RequestStatus h v.
Proof.
  split.
  - destruct v as [| |b|s|l]; simpl; try discriminate.
    + rewrite !orb_true_iff, !String.eqb_eq. intros [[-> | ->] | ->]; constructor.
    + destruct (h !! l) as [o|] eqn:Hl; [|discriminate].
      destruct (o !! "error") as [[| | |m|]|] eqn:Ho; try discriminate.
      intros _. apply (RS_error _ _ m). by exists l, o.
  - intros [| | |w m (l & o & -> & Hl & Ho)]; try done.
    simpl. by rewrite Hl, Ho.
Qed.

(** A legal state is one of the three unit variants or an error object. *)
Lemma RequestStatus_cases h v :
  RequestStatus h v →
  (∃ t, t ≠ ERROR ∧ v = enum_value t) ∨ (∃ m, ErrorObject h v m).
Proof.
  intros [| | |w m Hm]; [left; by eexists IDLE | left; by eexists PENDING
                        | left; by eexists SUCCESS | right; by exists m].
Qed.

End Types.

Section Projector.

(** On a string the [typeof] test fails and [in] is not evaluated. *)
Lemma getRequestStatus_string s h :
  getRequestStatus (VString s) h = (Normal (VString s), h).
Proof. reflexivity. Qed.

(** On an object the answer is decided by the [error] property. *)
Lemma getRequestStatus_object l h :
  getRequestStatus (VObject l) h =
    (Normal (if bool_decide (is_Some (deref h l !! "error"))
             then enum_value ERROR else VObject l), h).
Proof.
  unfold getRequestStatus, and_then, mbind, JS_bind, mret, JS_ret. simpl.
  by destruct (bool_decide _).
Qed.

(** [typeof null] is ["object"], so [in] is evaluated and throws.  The
    type [RequestStatus] excludes [null]. *)
Lemma getRequestStatus_null h : getRequestStatus VNull h = (Throw TypeError, h).
Proof. reflexivity. Qed.

Lemma getRequestStatus_error_object h v m :
  ErrorObject h v m → getRequestStatus v h = (Normal (enum_value ERROR), h).
Proof.
  intros Hv. destruct Hv as (l & o & -> & Hl & Ho).
  rewrite getRequestStatus_object, (deref_Some _ _ _ Hl), Ho.
  by rewrite bool_decide_eq_true_2.
Qed.

Lemma getRequestStatus_unit t h :
  getRequestStatus (enum_value t) h = (Normal (enum_value t), h).
Proof. apply getRequestStatus_string. Qed.

(** The heap is left as it was found, whatever the argument. *)
Lemma getRequestStatus_heap s h : (getRequestStatus s h).2 = h.
Proof.
  destruct s as [| |b|s|l]; try reflexivity.
  by rewrite getRequestStatus_object.
Qed.

(** The projection of a legal state: a tag, [ERROR] exactly on the error
    objects and the state itself otherwise. *)
Lemma getRequestStatus_legal h s :
  RequestStatus h s →
  ∃ t, getRequestStatus s h = (Normal (enum_value t), h)
       ∧ (t = ERROR → ∃ m, ErrorObject h s m)
       ∧ (t ≠ ERROR → s = enum_value t).
Proof.
  intros Hs. destruct (RequestStatus_cases _ _ Hs) as [(t & Ht & ->) | (m & Hm)].
  - exists t. split; [apply getRequestStatus_unit | done].
  - exists ERROR. split; [by eapply getRequestStatus_error_object |].
    split; [by exists m | done].
Qed.

Lemma isRequestStatus_unfold s t h r :
  getRequestStatus s h = (Normal r, h) →
  isRequestStatus s t h = (Normal (strict_equals r t), h).
Proof. intros Hr. unfold isRequestStatus. by rewrite (bind_normal _ _ _ _ _ Hr). Qed.

Lemma isRequestStatus_heap s t h : (isRequestStatus s t h).2 = h.
Proof.
  pose proof (getRequestStatus_heap s h) as Hh.
  unfold isRequestStatus, mbind, JS_bind.
  by destruct (getRequestStatus s h) as [[r|e] h'']; simpl in *; subst.
Qed.

(** The predicate on a legal state and a tag. *)
Lemma isRequestStatus_legal h s t u :
  getRequestStatus s h = (Normal (enum_value t), h) →
  isRequestStatus s (enum_value u) h = (Normal (bool_decide (t = u)), h).
Proof.
  intros Ht. by rewrite (isRequestStatus_unfold _ _ _ _ Ht), strict_equals_enum.
Qed.

Lemma isRequestStatus_true_inv h s t :
  RequestStatus h s →
  (isRequestStatus s (enum_value t) h).1 = Normal true →
  getRequestStatus s h = (Normal (enum_value t), h).
Proof.
  intros Hs Hb. destruct (getRequestStatus_legal _ _ Hs) as (u & Hu & _).
  rewrite (isRequestStatus_legal _ _ _ t Hu) in Hb. simpl in Hb.
  injection Hb as Hb. apply bool_decide_eq_true in Hb. by subst u.
Qed.

Lemma member_error_object h v m :
  ErrorObject h v m → member_error v h = (Normal (VString m), h).
Proof.
  intros (l & o & -> & Hl & Ho). simpl. by rewrite (deref_Some _ _ _ Hl), Ho.
Qed.

(** What the literal [{ error: m }] evaluates to. *)
Lemma error_state_spec m h :
  ∃ l, h !! l = None
       ∧ error_state m h = (Normal (VObject l), <[l := {[ "error" := VString m ]}]> h)
       ∧ ErrorObject (<[l := {[ "error" := VString m ]}]> h) (VObject l) m.
Proof.
  destruct (object_literal_fresh {[ "error" := VString m ]} h) as (l & Hl & Heq).
  exists l. split; [done|]. split; [done|].
  exists l, {[ "error" := VString m ]}. split; [done|].
  split; [apply lookup_insert_eq | apply lookup_singleton_eq].
Qed.

(** An error object is not the bare tag, and the predicate accepts it. *)
Lemma error_object_not_tag h s m :
  ErrorObject h s m →
  strict_equals s (enum_value ERROR) = false
  ∧ isRequestStatus s (enum_value ERROR) h = (Normal true, h).
Proof.
  intros Hs. split; [by destruct Hs as (l & o & -> & _) |].
  by rewrite (isRequestStatus_legal _ _ ERROR ERROR (getRequestStatus_error_object _ _ _ Hs)).
Qed.

End Projector.

Section Claims.

(** C1. For every legal state [s] and every tag [t], [isRequestStatus(s, t)]
    returns a boolean, and it is [true] if and only if
    [getRequestStatus(s)] returns [t]. *)
Theorem isRequestStatus_agrees_with_projection h s t :
  RequestStatus h s →
  ∃ b, isRequestStatus s (enum_value t) h = (Normal b, h)
       ∧ (b = true ↔ getRequestStatus s h = (Normal (enum_value t), h)).
Proof.
  intros Hs. destruct (getRequestStatus_legal _ _ Hs) as (u & Hu & _).
  exists (bool_decide (u = t)). split; [by apply isRequestStatus_legal |].
  rewrite Hu, bool_decide_eq_true. split; [by intros -> |].
  intros Heq. apply Normal_enum_inj. congruence.
Qed.

Lemma isRequestStatus_agrees_with_projection_witness :
  ∃ b, isRequestStatus (VObject 1%positive) (enum_value ERROR) heap_timeout
         = (Normal b, heap_timeout)
       ∧ (b = true ↔ getRequestStatus (VObject 1%positive) heap_timeout
                       = (Normal (enum_value ERROR), heap_timeout)).
Proof.
  apply (isRequestStatus_agrees_with_projection heap_timeout (VObject 1%positive) ERROR).
  apply is_RequestStatus_spec. vm_compute. reflexivity.
Defined.

(** C2. Narrowing is sound for [ERROR]: when [isRequestStatus(s, ERROR)]
    returns [true] on a legal state [s], [s] has the narrowed type
    [ExtractRequestStatus<ERROR>], it is an error object and [s.error]
    reads its message, a string.  And testing [{ error: "timeout" }]
    against [ERROR] returns [true], the message read being ["timeout"]. *)
Theorem narrowing_sound_for_error :
  (∀ h s,
     RequestStatus h s →
     (isRequestStatus s (enum_value ERROR) h).1 = Normal true →
     ExtractRequestStatus h ERROR s
     ∧ ∃ m, ErrorObject h s m ∧ member_error s h = (Normal (VString m), h))
  ∧ (∀ h, scenario_timeout h
          = (Normal (true, VString "timeout"), (error_state "timeout" h).2)).
Proof.
  split.
  - intros h s Hs Hb. pose proof (isRequestStatus_true_inv _ _ _ Hs Hb) as Hg.
    destruct (getRequestStatus_legal _ _ Hs) as (u & Hu & Herr & _).
    assert (u = ERROR) as Hg' by (apply Normal_enum_inj; congruence).
    destruct (Herr Hg') as [m Hm]. split; [split; [done | by exists m] |].
    exists m. split; [done | by apply member_error_object].
  - intros h. destruct (error_state_spec "timeout" h) as (l & _ & Heq & Hobj).
    unfold scenario_timeout. rewrite (bind_normal _ _ _ _ _ Heq), Heq. simpl.
    destruct (error_object_not_tag _ _ _ Hobj) as [_ Hb].
    rewrite (bind_normal _ _ _ _ _ Hb).
    by rewrite (bind_normal _ _ _ _ _ (member_error_object _ _ _ Hobj)).
Qed.

Lemma narrowing_sound_for_error_witness :
  ExtractRequestStatus heap_timeout ERROR (VObject 1%positive)
  ∧ ∃ m, ErrorObject heap_timeout (VObject 1%positive) m
         ∧ member_error (VObject 1%positive) heap_timeout
           = (Normal (VString m), heap_timeout).
Proof.
  apply (proj1 narrowing_sound_for_error heap_timeout (VObject 1%positive)).
  - apply is_RequestStatus_spec. vm_compute. reflexivity.
  - vm_compute. reflexivity.
Defined.

(** C3. For every message [m], [getRequestStatus({ error: m })] returns
    [ERROR]; on an object the answer is [ERROR] exactly when the object
    has an [error] property; and a value that is not an object is returned
    as it is, whether or not it is one of the three unit variants: nothing
    is inferred from a value not being [IDLE], [PENDING] or [SUCCESS]. *)
Theorem error_detection_is_structural :
  (∀ m h, (error_state m ≫= getRequestStatus) h
          = (Normal (enum_value ERROR), (error_state m h).2))
  ∧ (∀ h l o,
       h !! l = Some o →
       getRequestStatus (VObject l) h = (Normal (enum_value ERROR), h)
       ↔ is_Some (o !! "error"))
  ∧ (∀ h s, typeof s ≠ "object" → getRequestStatus s h = (Normal s, h)).
Proof.
  split; [|split].
  - intros m h. destruct (error_state_spec m h) as (l & _ & Heq & Hobj).
    rewrite (bind_normal _ _ _ _ _ Heq), Heq. simpl.
    by eapply getRequestStatus_error_object.
  - intros h l o Hl. rewrite getRequestStatus_object, (deref_Some _ _ _ Hl).
    case_bool_decide as Hin; [done|]. split; [discriminate | done].
  - intros h s Hty. by destruct s.
Qed.

Lemma error_detection_is_structural_witness :
  (getRequestStatus (VObject 1%positive) heap_timeout
     = (Normal (enum_value ERROR), heap_timeout)
   ↔ is_Some (({[ "error" := VString "timeout" ]} : object) !! "error"))
  ∧ getRequestStatus (VBool true) heap_timeout = (Normal (VBool true), heap_timeout).
Proof.
  split.
  - apply (proj1 (proj2 error_detection_is_structural) heap_timeout 1%positive).
    vm_compute. reflexivity.
  - apply (proj2 (proj2 error_detection_is_structural) heap_timeout (VBool true)).
    simpl. discriminate.
Defined.

(** C4. On each of the three unit variants [IDLE], [PENDING], [SUCCESS],
    [getRequestStatus] returns its argument. *)
Theorem getRequestStatus_identity_on_units h t :
  t ≠ ERROR → getRequestStatus (enum_value t) h = (Normal (enum_value t), h).
Proof. intros _. apply getRequestStatus_unit. Qed.

Lemma getRequestStatus_identity_on_units_witness :
  getRequestStatus (enum_value PENDING) heap_timeout
  = (Normal (enum_value PENDING), heap_timeout).
Proof.
  apply (getRequestStatus_identity_on_units heap_timeout PENDING). discriminate.
Defined.

(** C5. [getRequestStatus] is total on the legal states: it does not throw
    and returns one of the four tags, and that tag is the only one it
    returns. *)
Theorem getRequestStatus_total h s :
  RequestStatus h s →
  ∃ t, getRequestStatus s h = (Normal (enum_value t), h)
       ∧ ∀ t', (getRequestStatus s h).1 = Normal (enum_value t') → t' = t.
Proof.
  intros Hs. destruct (getRequestStatus_legal _ _ Hs) as (t & Ht & _).
  exists t. split; [done|]. rewrite Ht. simpl. intros t' Heq.
  symmetry. by apply Normal_enum_inj.
Qed.

Lemma getRequestStatus_total_witness :
  ∃ t, getRequestStatus (enum_value SUCCESS) ∅ = (Normal (enum_value t), ∅)
       ∧ ∀ t', (getRequestStatus (enum_value SUCCESS) ∅).1 = Normal (enum_value t')
               → t' = t.
Proof.
  apply (getRequestStatus_total ∅ (enum_value SUCCESS)).
  apply is_RequestStatus_spec. vm_compute. reflexivity.
Defined.

(** C6. Narrowing is sound for the unit tags: when [isRequestStatus(s, t)]
    returns [true] on a legal state [s] for [t] one of [IDLE], [PENDING],
    [SUCCESS], [s] has the narrowed type [ExtractRequestStatus<t>], that
    is, [s] is the unit variant [t] itself. *)
Theorem narrowing_sound_for_units h s t :
  RequestStatus h s →
  t ≠ ERROR →
  (isRequestStatus s (enum_value t) h).1 = Normal true →
  ExtractRequestStatus h t s ∧ s = enum_value t.
Proof.
  intros Hs Ht Hb. pose proof (isRequestStatus_true_inv _ _ _ Hs Hb) as Hg.
  destruct (getRequestStatus_legal _ _ Hs) as (u & Hu & _ & Hunit).
  assert (u = t) as -> by (apply Normal_enum_inj; congruence).
  rewrite (Hunit Ht). split; [by destruct t | done].
Qed.

Lemma narrowing_sound_for_units_witness :
  ExtractRequestStatus heap_timeout PENDING (VString "pending")
  ∧ VString "pending" = enum_value PENDING.
Proof.
  apply (narrowing_sound_for_units heap_timeout (VString "pending") PENDING).
  - apply is_RequestStatus_spec. vm_compute. reflexivity.
  - discriminate.
  - vm_compute. reflexivity.
Defined.

(** C7. For every legal state [s] exactly one of the four tags [t] makes
    [isRequestStatus(s, t)] return [true]. *)
Theorem classification_exactly_one h s :
  RequestStatus h s →
  ∃ t, isRequestStatus s (enum_value t) h = (Normal true, h)
       ∧ ∀ t', (isRequestStatus s (enum_value t') h).1 = Normal true → t' = t.
Proof.
  intros Hs. destruct (getRequestStatus_legal _ _ Hs) as (t & Ht & _).
  exists t. split.
  - by rewrite (isRequestStatus_legal _ _ _ t Ht), bool_decide_eq_true_2.
  - intros t' Hb. rewrite (isRequestStatus_legal _ _ _ t' Ht) in Hb.
    simpl in Hb. injection Hb as Hb. by apply bool_decide_eq_true in Hb.
Qed.

Lemma classification_exactly_one_witness :
  ∃ t, isRequestStatus (VObject 1%positive) (enum_value t) heap_timeout
         = (Normal true, heap_timeout)
       ∧ ∀ t', (isRequestStatus (VObject 1%positive) (enum_value t') heap_timeout).1
               = Normal true → t' = t.
Proof.
  apply (classification_exactly_one heap_timeout (VObject 1%positive)).
  apply is_RequestStatus_spec. vm_compute. reflexivity.
Defined.

(** C8. For every message [m], the state [{ error: m }] is not strictly
    equal to the bare tag [ERROR], and [isRequestStatus] of it and [ERROR]
    returns [true]; the same holds of every error object of the heap. *)
Theorem naive_equality_misses_error :
  (∀ m h, ∃ s h',
     error_state m h = (Normal s, h')
     ∧ strict_equals s (enum_value ERROR) = false
     ∧ isRequestStatus s (enum_value ERROR) h' = (Normal true, h'))
  ∧ (∀ h s m,
       ErrorObject h s m →
       strict_equals s (enum_value ERROR) = false
       ∧ isRequestStatus s (enum_value ERROR) h = (Normal true, h)).
Proof.
  split.
  - intros m h. destruct (error_state_spec m h) as (l & _ & Heq & Hobj).
    eexists _, _. split; [exact Heq|]. by eapply error_object_not_tag.
  - apply error_object_not_tag.
Qed.

Lemma naive_equality_misses_error_witness :
  strict_equals (VObject 1%positive) (enum_value ERROR) = false
  ∧ isRequestStatus (VObject 1%positive) (enum_value ERROR) heap_timeout
    = (Normal true, heap_timeout).
Proof.
  apply (proj2 naive_equality_misses_error heap_timeout (VObject 1%positive) "timeout").
  exists 1%positive, {[ "error" := VString "timeout" ]}.
  split; [reflexivity|]. split; vm_compute; reflexivity.
Defined.

(** C9. On a legal state [s] and a tag [t], two calls of
    [getRequestStatus(s)] in a row return the same value, two calls of
    [isRequestStatus(s, t)] in a row return the same boolean, and the heap
    after the calls is the heap before them. *)
Theorem repeated_calls_agree h s t :
  RequestStatus h s →
  (∃ v, twice (getRequestStatus s) h = (Normal (v, v), h))
  ∧ (∃ b, twice (isRequestStatus s (enum_value t)) h = (Normal (b, b), h)).
Proof.
  intros Hs. destruct (getRequestStatus_legal _ _ Hs) as (u & Hu & _).
  pose proof (isRequestStatus_legal _ _ _ t Hu) as Hb.
  split; eexists; unfold twice.
  - by rewrite (bind_normal _ _ _ _ _ Hu), (bind_normal _ _ _ _ _ Hu).
  - by rewrite (bind_normal _ _ _ _ _ Hb), (bind_normal _ _ _ _ _ Hb).
Qed.

Lemma repeated_calls_agree_witness :
  (∃ v, twice (getRequestStatus (VObject 1%positive)) heap_timeout
        = (Normal (v, v), heap_timeout))
  ∧ (∃ b, twice (isRequestStatus (VObject 1%positive) (enum_value IDLE)) heap_timeout
          = (Normal (b, b), heap_timeout)).
Proof.
  apply (repeated_calls_agree heap_timeout (VObject 1%positive) IDLE).
  apply is_RequestStatus_spec. vm_compute. reflexivity.
Defined.

(** C10. For every legal state [s],
    [isRequestStatus(s, getRequestStatus(s))] returns [true]. *)
Theorem round_trip_succeeds h s :
  RequestStatus h s → round_trip s h = (Normal true, h).
Proof.
  intros Hs. destruct (getRequestStatus_legal _ _ Hs) as (t & Ht & _).
  unfold round_trip. rewrite (bind_normal _ _ _ _ _ Ht).
  by rewrite (isRequestStatus_legal _ _ _ t Ht), bool_decide_eq_true_2.
Qed.

Lemma round_trip_succeeds_witness :
  round_trip (VObject 1%positive) heap_timeout = (Normal true, heap_timeout).
Proof.
  apply (round_trip_succeeds heap_timeout (VObject 1%positive)).
  apply is_RequestStatus_spec. vm_compute. reflexivity.
Defined.

End Claims.

(** * Outside the legal states, and how the functions compose *)

Section Values.

(** The projection of any value that is not [null]. *)
Lemma getRequestStatus_not_null s h :
  s ≠ VNull →
  ∃ v, getRequestStatus s h = (Normal v, h)
       ∧ (v = s ∨ (v = enum_value ERROR ∧ ∃ l, s = VObject l
                                               ∧ is_Some (deref h l !! "error"))).
Proof.
  intros Hs. destruct s as [| |b|s|l]; try (eexists; split; [reflexivity | by left]).
  - done.
  - rewrite getRequestStatus_object. eexists. split; [done|].
    case_bool_decide as Hin; [right | by left]. split; [done | by exists l].
Qed.

Lemma isRequestStatus_null t h : isRequestStatus VNull t h = (Throw TypeError, h).
Proof. reflexivity. Qed.

(** A projection is a string or the argument itself, so projecting it
    again changes nothing. *)
Lemma getRequestStatus_fixed s h v :
  getRequestStatus s h = (Normal v, h) → getRequestStatus v h = (Normal v, h).
Proof.
  intros Hv. destruct s as [| |b|s|l]; try (by injection Hv as <-).
  - discriminate.
  - rewrite getRequestStatus_object in Hv. injection Hv as <-.
    case_bool_decide as Hin; [done|].
    by rewrite getRequestStatus_object, bool_decide_eq_false_2.
Qed.



(** X3. The projection is idempotent on every value:
    [getRequestStatus(getRequestStatus(s))] is [getRequestStatus(s)], a
    throw included. *)
Theorem getRequestStatus_idempotent h s :
  (getRequestStatus s ≫= getRequestStatus) h = getRequestStatus s h.
Proof.
  destruct (decide (s = VNull)) as [-> | Hs]; [done|].
  destruct (getRequestStatus_not_null s h Hs) as (v & Hv & _).
  rewrite (bind_normal _ _ _ _ _ Hv), Hv. by eapply getRequestStatus_fixed.
Qed.

(** X4. Testing the projection of a state gives what testing the state
    gives: [isRequestStatus(getRequestStatus(s), t)] is
    [isRequestStatus(s, t)], for every value [s] and every [t]. *)
Theorem isRequestStatus_of_projection h s t :
  (v ← getRequestStatus s; isRequestStatus v t) h = isRequestStatus s t h.
Proof.
  destruct (decide (s = VNull)) as [-> | Hs]; [done|].
  destruct (getRequestStatus_not_null s h Hs) as (v & Hv & _).
  rewrite (bind_normal _ _ _ _ _ Hv).
  rewrite (isRequestStatus_unfold _ _ _ _ Hv).
  by rewrite (isRequestStatus_unfold _ _ _ _ (getRequestStatus_fixed _ _ _ Hv)).
Qed.

(** X5. Over all values, [isRequestStatus(s, ERROR)] returns [true] exactly
    when [s] is the bare string ["error"] or an object with an [error]
    property, whatever that property holds. *)
Theorem isRequestStatus_ERROR_accepts h s :
  isRequestStatus s (enum_value ERROR) h = (Normal true, h)
  ↔ s = enum_value ERROR ∨ ∃ l, s = VObject l ∧ is_Some (deref h l !! "error").
Proof.
  destruct (decide (s = VNull)) as [-> | Hs].
  { rewrite isRequestStatus_null.
    split; [discriminate | intros [Heq | (l & Heq & _)]; discriminate]. }
  destruct (getRequestStatus_not_null s h Hs) as (v & Hv & Hcases).
  rewrite (isRequestStatus_unfold _ _ _ _ Hv). split.
  - intros [= Heq]. apply strict_equals_spec in Heq. subst v.
    destruct Hcases as [<- | [_ Hobj]]; [by left | by right].
  - intros Hacc. f_equal. f_equal. apply strict_equals_spec.
    destruct Hacc as [-> | (l & -> & Hin)].
    + by injection Hv as <-.
    + rewrite getRequestStatus_object, bool_decide_eq_true_2 in Hv by done.
      by injection Hv as <-.
Qed.

(** X6. The type of the argument is what makes the narrowing sound: for a
    value [s] that [isRequestStatus(s, ERROR)] accepts, [s.error] reads a
    string if and only if [s] is a legal [RequestStatus]. *)
Theorem narrowing_needs_legal_state h s :
  (isRequestStatus s (enum_value ERROR) h).1 = Normal true →
  (∃ m, member_error s h = (Normal (VString m), h)) ↔ RequestStatus h s.
Proof.
  intros Hacc.
  assert (isRequestStatus s (enum_value ERROR) h = (Normal true, h)) as Hacc'.
  { pose proof (isRequestStatus_heap s (enum_value ERROR) h).
    destruct (isRequestStatus _ _ h); simpl in *; congruence. }
  apply isRequestStatus_ERROR_accepts in Hacc' as [-> | (l & -> & [x Hx])].
  - split; [by intros [m [=]] |].
    intros Hlegal.
    destruct (RequestStatus_cases _ _ Hlegal) as [(t & Ht & Heq) | (m & l & o & Heq & _)];
      [by destruct t | done].
  - assert (∃ o, h !! l = Some o ∧ o !! "error" = Some x) as (o & Hl & Ho).
    { unfold deref in Hx. destruct (h !! l) as [o|]; [by exists o | done]. }
    split.
    + intros [m Hm]. simpl in Hm. rewrite (deref_Some _ _ _ Hl), Ho in Hm.
      injection Hm as ->. apply (RS_error _ _ m). by exists l, o.
    + intros Hlegal.
      destruct (RequestStatus_cases _ _ Hlegal) as [(t & _ & Ht) | (m & Hm)];
        [by destruct t |].
      exists m. by apply member_error_object.
Qed.

Lemma narrowing_needs_legal_state_witness :
  (∃ m, member_error (VString "error") heap_timeout = (Normal (VString m), heap_timeout))
  ↔ RequestStatus heap_timeout (VString "error").
Proof.
  apply (narrowing_needs_legal_state heap_timeout (VString "error")).
  vm_compute. reflexivity.
Defined.

(** X7. The predicate does not see the message: two error objects, with
    any two messages, get the same answer from [isRequestStatus] for every
    second argument. *)
Theorem isRequestStatus_ignores_message h s s' m m' t :
  ErrorObject h s m → ErrorObject h s' m' →
  isRequestStatus s t h = isRequestStatus s' t h.
Proof.
  intros Hs Hs'.
  rewrite (isRequestStatus_unfold _ _ _ _ (getRequestStatus_error_object _ _ _ Hs)).
  by rewrite (isRequestStatus_unfold _ _ _ _ (getRequestStatus_error_object _ _ _ Hs')).
Qed.

Lemma isRequestStatus_ignores_message_witness :
  isRequestStatus (VObject 1%positive) (VObject 1%positive) heap_two_errors
  = isRequestStatus (VObject 2%positive) (VObject 1%positive) heap_two_errors.
Proof.
  apply (isRequestStatus_ignores_message heap_two_errors
           (VObject 1%positive) (VObject 2%positive) "timeout" "refused").
  - exists 1%positive, {[ "error" := VString "timeout" ]}.
    split; [reflexivity|]. split; vm_compute; reflexivity.
  - exists 2%positive, {[ "error" := VString "refused"; "code" := VString "E42" ]}.
    split; [reflexivity|]. split; vm_compute; reflexivity.
Defined.

End Values.

(** * The guard against the type it declares *)

Section Guard.

(** A value of the narrowed type [ExtractRequestStatus<t>] projects to [t]. *)
Lemma ExtractRequestStatus_projection h t v :
  ExtractRequestStatus h t v → getRequestStatus v h = (Normal (enum_value t), h).
Proof.
  destruct t; simpl; try (intros ->; apply getRequestStatus_unit).
  intros [_ [m Hm]]. by eapply getRequestStatus_error_object.
Qed.

(** On a legal state the guard says [true] exactly on the narrowed type. *)
Lemma isRequestStatus_true_iff h s t :
  RequestStatus h s →
  isRequestStatus s (enum_value t) h = (Normal true, h) ↔ ExtractRequestStatus h t s.
Proof.
  intros Hs. destruct (getRequestStatus_legal _ _ Hs) as (u & Hu & Herr & Hunit).
  rewrite (isRequestStatus_legal _ _ _ t Hu). split.
  - intros [= Heq]. apply bool_decide_eq_true in Heq. subst u.
    destruct (decide (t = ERROR)) as [-> | Ht].
    + by split; [| apply Herr].
    + rewrite (Hunit Ht). by destruct t.
  - intros Hex. f_equal. f_equal. apply bool_decide_eq_true.
    apply Normal_enum_inj. rewrite (ExtractRequestStatus_projection _ _ _ Hex) in Hu.
    congruence.
Qed.

(** X8. The guard is exact on legal states: [isRequestStatus(s, t)] returns
    a boolean, [true] when [s] has the type [ExtractRequestStatus<t>] and
    [false] when it has not, so narrowing in the else branch is sound as
    well. *)
Theorem guard_is_exact h s t :
  RequestStatus h s →
  ∃ b, isRequestStatus s (enum_value t) h = (Normal b, h)
       ∧ (b = true ↔ ExtractRequestStatus h t s)
       ∧ (b = false ↔ ¬ ExtractRequestStatus h t s).
Proof.
  intros Hs. pose proof (isRequestStatus_true_iff h s t Hs) as Hiff.
  destruct (getRequestStatus_legal _ _ Hs) as (u & Hu & _).
  rewrite (isRequestStatus_legal _ _ _ t Hu) in Hiff |- *.
  exists (bool_decide (u = t)). split; [done|].
  destruct (bool_decide (u = t)).
  - split; [split; [by intros _; apply Hiff | done] |].
    split; [discriminate | intros Hn; destruct Hn; by apply Hiff].
  - assert (¬ ExtractRequestStatus h t s) as Hn.
    { intros Hex. apply Hiff in Hex. discriminate. }
    split; [split; [discriminate | done] | done].
Qed.

Lemma guard_is_exact_witness :
  ∃ b, isRequestStatus (VObject 1%positive) (enum_value SUCCESS) heap_timeout
         = (Normal b, heap_timeout)
       ∧ (b = true ↔ ExtractRequestStatus heap_timeout SUCCESS (VObject 1%positive))
       ∧ (b = false ↔ ¬ ExtractRequestStatus heap_timeout SUCCESS (VObject 1%positive)).
Proof.
  apply (guard_is_exact heap_timeout (VObject 1%positive) SUCCESS).
  apply is_RequestStatus_spec. vm_compute. reflexivity.
Defined.

(** X9. The four narrowed types [ExtractRequestStatus<t>] split
    [RequestStatus]: a value is a legal state exactly when it has one of
    them, and it has at most one. *)
Theorem narrowed_types_partition h v :
  (RequestStatus h v ↔ ∃ t, ExtractRequestStatus h t v)
  ∧ (∀ t t', ExtractRequestStatus h t v → ExtractRequestStatus h t' v → t = t').
Proof.
  split; [split|].
  - intros Hv. destruct (RequestStatus_cases _ _ Hv) as [(t & Ht & ->) | (m & Hm)].
    + exists t. by destruct t.
    + exists ERROR. split; [done | by exists m].
  - intros [t Ht]. destruct t; simpl in Ht; try (subst v; constructor). by destruct Ht.
  - intros t t' Ht Ht'. apply Normal_enum_inj.
    apply ExtractRequestStatus_projection in Ht, Ht'. congruence.
Qed.

Lemma narrowed_types_partition_witness :
  (∃ t, ExtractRequestStatus heap_two_errors t (VObject 2%positive))
  ∧ ERROR = ERROR.
Proof.
  split.
  - apply (proj1 (proj1 (narrowed_types_partition heap_two_errors (VObject 2%positive)))).
    apply is_RequestStatus_spec. vm_compute. reflexivity.
  - apply (proj2 (narrowed_types_partition heap_two_errors (VObject 2%positive)) ERROR ERROR);
      (split; [apply is_RequestStatus_spec; vm_compute; reflexivity |]);
      exists "refused", 2%positive,
        {[ "error" := VString "refused"; "code" := VString "E42" ]};
      (split; [reflexivity|]); split; vm_compute; reflexivity.
Defined.

(** Each one-tag guard is the generic guard at its tag. *)
Lemma dedicated_guards_generic s h :
  isRequestStatusError s h = isRequestStatus s (enum_value ERROR) h
  ∧ isRequestStatusIdle s h = isRequestStatus s (enum_value IDLE) h
  ∧ isRequestStatusPending s h = isRequestStatus s (enum_value PENDING) h
  ∧ isRequestStatusSuccess s h = isRequestStatus s (enum_value SUCCESS) h.
Proof. done. Qed.

(** X10. Each one-tag guard of the article is exact for the type its
    signature declares: on a legal state [isRequestStatusError] returns
    [true] exactly on the error objects, and [isRequestStatusIdle],
    [isRequestStatusPending], [isRequestStatusSuccess] exactly on their unit
    variant. *)
Theorem dedicated_guards_exact h s :
  RequestStatus h s →
  (isRequestStatusError s h = (Normal true, h) ↔ ∃ m, ErrorObject h s m)
  ∧ (isRequestStatusIdle s h = (Normal true, h) ↔ s = enum_value IDLE)
  ∧ (isRequestStatusPending s h = (Normal true, h) ↔ s = enum_value PENDING)
  ∧ (isRequestStatusSuccess s h = (Normal true, h) ↔ s = enum_value SUCCESS).
Proof.
  intros Hs. destruct (dedicated_guards_generic s h) as (-> & -> & -> & ->).
  rewrite !(isRequestStatus_true_iff _ _ _ Hs). simpl.
  split; [|done]. split; [by intros [_ Hm] | done].
Qed.

Lemma dedicated_guards_exact_witness :
  (isRequestStatusError (VObject 2%positive) heap_two_errors
     = (Normal true, heap_two_errors)
   ↔ ∃ m, ErrorObject heap_two_errors (VObject 2%positive) m)
  ∧ (isRequestStatusIdle (VObject 2%positive) heap_two_errors
       = (Normal true, heap_two_errors) ↔ VObject 2%positive = enum_value IDLE)
  ∧ (isRequestStatusPending (VObject 2%positive) heap_two_errors
       = (Normal true, heap_two_errors) ↔ VObject 2%positive = enum_value PENDING)
  ∧ (isRequestStatusSuccess (VObject 2%positive) heap_two_errors
       = (Normal true, heap_two_errors) ↔ VObject 2%positive = enum_value SUCCESS).
Proof.
  apply (dedicated_guards_exact heap_two_errors (VObject 2%positive)).
  apply is_RequestStatus_spec. vm_compute. reflexivity.
Defined.

End Guard.

(** * The call sites of the article *)

Section CallSites.



(** X12. The hand-written error check and [isRequestStatus(s, ERROR)] give
    the same answer, or both throw, on every value but the bare string
    ["error"]; on that string the hand-written check answers [false] and the
    helper [true].  On the legal states they agree. *)
Theorem manual_error_check_agrees :
  (∀ h s, s ≠ enum_value ERROR →
          manual_error_check s h = isRequestStatus s (enum_value ERROR) h)
  ∧ (∀ h, manual_error_check (enum_value ERROR) h = (Normal false, h)
          ∧ isRequestStatus (enum_value ERROR) (enum_value ERROR) h = (Normal true, h))
  ∧ (∀ h s, RequestStatus h s →
            manual_error_check s h = isRequestStatus s (enum_value ERROR) h).
Proof.
  assert (∀ h s, s ≠ enum_value ERROR →
            manual_error_check s h = isRequestStatus s (enum_value ERROR) h) as Hagree.
  { intros h s Hs. destruct s as [| |b|s|l]; try done.
    - rewrite (isRequestStatus_unfold _ _ _ _ (getRequestStatus_string s h)).
      simpl. destruct (String.eqb_spec s "error") as [-> | _]; done.
    - rewrite (isRequestStatus_unfold _ _ _ _ (getRequestStatus_object l h)).
      unfold manual_error_check, and_then, mbind, JS_bind, mret, JS_ret. simpl.
      by case_bool_decide. }
  split; [done|]. split; [done|].
  intros h s Hs. apply Hagree. intros ->.
  destruct (RequestStatus_cases _ _ Hs) as [(t & Ht & Heq) | (m & l & o & Heq & _)];
    [by destruct t | done].
Qed.

Lemma manual_error_check_agrees_witness :
  manual_error_check (VObject 3%positive) heap_two_errors
  = isRequestStatus (VObject 3%positive) (enum_value ERROR) heap_two_errors
  ∧ manual_error_check (VObject 2%positive) heap_two_errors
    = isRequestStatus (VObject 2%positive) (enum_value ERROR) heap_two_errors.
Proof.
  split.
  - apply (proj1 manual_error_check_agrees heap_two_errors (VObject 3%positive)).
    discriminate.
  - apply (proj2 (proj2 manual_error_check_agrees) heap_two_errors (VObject 2%positive)).
    apply is_RequestStatus_spec. vm_compute. reflexivity.
Defined.

(** X13. Reading [requestStatus.error] inside
    [if (isRequestStatus(requestStatus, t))] on a legal state never throws.
    Under [ERROR] the branch is entered exactly on the error objects and the
    access reads the message; under [IDLE], [PENDING] or [SUCCESS] the
    branch is entered exactly on that unit variant and the access reads
    [undefined]. *)
Theorem guarded_error_access_on_legal h s t :
  RequestStatus h s →
  ∃ r, guarded_error_access s (enum_value t) h = (Normal r, h)
       ∧ match r with
         | None => ¬ ExtractRequestStatus h t s
         | Some v =>
             ExtractRequestStatus h t s
             ∧ if decide (t = ERROR) then ∃ m, v = VString m ∧ ErrorObject h s m
               else v = VUndefined
         end.
Proof.
  intros Hs. pose proof (isRequestStatus_true_iff h s t Hs) as Hiff.
  destruct (getRequestStatus_legal _ _ Hs) as (u & Hu & _).
  pose proof (isRequestStatus_legal _ _ _ t Hu) as Hb. rewrite Hb in Hiff.
  unfold guarded_error_access. rewrite (bind_normal _ _ _ _ _ Hb).
  destruct (bool_decide (u = t)).
  - assert (ExtractRequestStatus h t s) as Hex by by apply Hiff.
    destruct (decide (t = ERROR)) as [-> | Ht].
    + destruct Hex as [Hlegal [m Hm]].
      rewrite (bind_normal _ _ _ _ _ (member_error_object _ _ _ Hm)).
      eexists. split; [reflexivity|]. split; [by split; [| exists m] |].
      by exists m.
    + assert (s = enum_value t) as -> by by destruct t.
      eexists. split; [reflexivity|]. by split.
  - eexists. split; [reflexivity|]. intros Hex. apply Hiff in Hex. discriminate.
Qed.

Lemma guarded_error_access_on_legal_witness :
  ∃ r, guarded_error_access (enum_value SUCCESS) (enum_value SUCCESS) heap_timeout
         = (Normal r, heap_timeout)
       ∧ match r with
         | None => ¬ ExtractRequestStatus heap_timeout SUCCESS (enum_value SUCCESS)
         | Some v =>
             ExtractRequestStatus heap_timeout SUCCESS (enum_value SUCCESS)
             ∧ if decide (SUCCESS = ERROR)
               then ∃ m, v = VString m ∧ ErrorObject heap_timeout (enum_value SUCCESS) m
               else v = VUndefined
         end.
Proof.
  apply (guarded_error_access_on_legal heap_timeout (enum_value SUCCESS) SUCCESS).
  apply is_RequestStatus_spec. vm_compute. reflexivity.
Defined.

End CallSites.

(** * [print] *)

Section PrintFacts.

Import Print.

Lemma print_array items out :
  print (Arr items) out = (Normal Undefined, (out ++ [Str (join " " items)])%list).
Proof. reflexivity. Qed.

Lemma string_app_assoc (a b c : string) : (a ++ b) ++ c = a ++ (b ++ c).
Proof.
  induction a as [|ch a IH]; [done|].
  change (String ch ((a ++ b) ++ c) = String ch (a ++ b ++ c)). by rewrite IH.
Qed.

Lemma join_app sep a b :
  a ≠ [] → b ≠ [] → join sep (a ++ b) = join sep a ++ sep ++ join sep b.
Proof.
  intros Ha Hb. induction a as [|x a IH]; [done|].
  destruct a as [|y a].
  - simpl. destruct b; [done | reflexivity].
  - change (join sep (x :: y :: a)) with (x ++ sep ++ join sep (y :: a)).
    change (join sep ((x :: y :: a) ++ b)) with (x ++ sep ++ join sep ((y :: a) ++ b)).
    rewrite IH by done. by rewrite !string_app_assoc.
Qed.

(** X14. [print] never throws and logs exactly one value after what was
    logged before: an array is logged as its strings joined by single
    spaces, anything else as it is.  The truthiness test sends [null] and
    the empty string to the else branch, so [join] is called on arrays
    only. *)
Theorem print_logs_once strs out :
  ∃ line, print strs out = (Normal Undefined, (out ++ [line])%list)
          ∧ line = match strs with
                   | Arr items => Str (join " " items)
                   | _ => strs
                   end.
Proof.
  destruct strs as [| |s|items]; try (by eexists).
  exists (Str s). split; [|done]. unfold print. simpl.
  by destruct (negb (String.eqb s "")).
Qed.

(** X15. An array of one string prints as the string itself, and the empty
    array prints as the empty string. *)
Theorem print_singleton s out :
  print (Arr [s]) out = print (Str s) out
  ∧ print (Arr []) out = print (Str "") out.
Proof.
  split; [|done]. rewrite print_array. unfold print. simpl.
  by destruct (negb (String.eqb s "")).
Qed.

(** X16. Printing the concatenation of two non-empty arrays logs the two
    lines that printing each would log, with one space between them. *)
Theorem print_app a b out :
  a ≠ [] → b ≠ [] →
  print (Arr (a ++ b)) out
  = (Normal Undefined, (out ++ [Str (join " " a ++ " " ++ join " " b)])%list).
Proof. intros Ha Hb. by rewrite print_array, join_app. Qed.

Lemma print_app_witness :
  print (Arr (["a"; "b"] ++ ["c"])) []
  = (Normal Undefined, ([] ++ [Str (join " " ["a"; "b"] ++ " " ++ join " " ["c"])])%list).
Proof. apply (print_app ["a"; "b"] ["c"] []); discriminate. Defined.

End PrintFacts.
